(** * The FFmpeg logging bridge of jxl-oxide-cli

    A shallow embedding of [crates/jxl-oxide-cli/src/output/ffmpeg_log.c]:

<<
    void jxl_oxide_ffmpeg_log(void *avcl, int level, const char *line);

    void jxl_oxide_ffmpeg_log_c(void *avcl, int level, const char *fmt, va_list vl) {
      char *buf = malloc(65536);
      if (buf == NULL) {
        return;
      }

      vsnprintf(buf, 65536, fmt, vl);
      jxl_oxide_ffmpeg_log(avcl, level, buf);
      free(buf);
    }
>>

    The function is straight-line code over four external calls.  The C
    library calls ([malloc], [vsnprintf], [free]) and the host sink are
    modelled as operations of a state monad over a block-structured heap
    and a trace of the calls made; undefined behaviour of C (a store or a
    load outside a live block, a release of something that is not a live
    block, a malformed format) is a distinguished result.  The [int]
    level is an integer of [Z]: the bridge does no arithmetic on it, and
    what holds for every integer holds for every [int]. *)

From Stdlib Require Import ZArith Ascii String DecimalString HexadecimalString.
From stdpp Require Import base option list strings gmap.

Local Open Scope Z_scope.

(** ** Characters and C strings *)

(** The terminating character of a C string. *)
Definition NUL : ascii := Ascii.zero.

(** The characters of a Rocq string literal, as a C [char] sequence. *)
Definition chars (s : string) : list ascii := list_ascii_of_string s.

(** The text a [const char *] denotes when it points at the characters [l]
    followed by a terminator: everything before the first [NUL]. *)
Fixpoint until_nul (l : list ascii) : list ascii :=
  match l with
  | [] => []
  | c :: r => if Ascii.eqb c NUL then [] else c :: until_nul r
  end.

(** Reading a C string out of the characters [l] of a block: the text
    before the first [NUL], or nothing when [l] holds no terminator (the
    read would run off the block). *)
Fixpoint strnul (l : list ascii) : option (list ascii) :=
  match l with
  | [] => None
  | c :: r => if Ascii.eqb c NUL then Some [] else cons c <$> strnul r
  end.

(** ** Pointers, heap, calls *)

(** A pointer is null or an offset into an allocated block. *)
Inductive val :=
| NULL
| Ptr (b : positive) (ofs : Z).

Definition is_null (p : val) : bool :=
  match p with NULL => true | Ptr _ _ => false end.

(** The external calls the bridge makes, with what they were given and
    what they returned.  [EvLog] carries the pointer handed to the sink
    and the text the sink reads through it. *)
Inductive event :=
| EvMalloc (size : Z) (ret : val)
| EvVsnprintf (s : val) (n : Z) (ret : Z)
| EvLog (avcl : val) (level : Z) (line : val) (text : list ascii)
| EvFree (p : val).

(** The world the bridge runs in: the live heap blocks with their
    contents, the allocator's coming decisions (for each future [malloc],
    [None] to fail or [Some junk] to succeed with a block whose
    indeterminate initial contents are [junk 0], [junk 1], ...), and the
    calls made so far, oldest first. *)
Record world := World {
  heap : gmap positive (list ascii);
  oracle : list (option (nat -> ascii));
  trace : list event
}.

(** What the allocator will answer to the next request; an exhausted
    allocator fails. *)
Definition next_alloc (w : world) : option (nat -> ascii) :=
  match oracle w with
  | Some junk :: _ => Some junk
  | _ => None
  end.

(** Storing the characters [bs] through [p]; refused outside a live block. *)
Definition store (h : gmap positive (list ascii)) (p : val) (bs : list ascii)
  : option (gmap positive (list ascii)) :=
  match p with
  | NULL => None
  | Ptr b ofs =>
    match h !! b with
    | None => None
    | Some old =>
      if (0 <=? ofs) && (ofs + Z.of_nat (length bs) <=? Z.of_nat (length old))
      then Some (<[b := take (Z.to_nat ofs) old ++ bs
                         ++ drop (Z.to_nat ofs + length bs)%nat old]> h)
      else None
    end
  end.

(** Reading the C string [p] points to; refused when [p] is null or
    dangling, or when the block holds no terminator from [p] on. *)
Definition load_cstring (h : gmap positive (list ascii)) (p : val)
  : option (list ascii) :=
  match p with
  | NULL => None
  | Ptr b ofs =>
    match h !! b with
    | None => None
    | Some bs => if 0 <=? ofs then strnul (drop (Z.to_nat ofs) bs) else None
    end
  end.

(** ** The monad of C computations *)

Inductive result (A : Type) :=
| Done (a : A) (w : world)
| Undefined.
Arguments Done {A} a w.
Arguments Undefined {A}.

Definition M (A : Type) : Type := world -> result A.

#[global] Instance M_ret : MRet M := fun A a w => Done a w.
#[global] Instance M_bind : MBind M := fun A B f m w =>
  match m w with
  | Done a w' => f a w'
  | Undefined => Undefined
  end.

Definition log_call (e : event) (w : world) : world :=
  {| heap := heap w; oracle := oracle w; trace := trace w ++ [e] |}.

(** ** Variadic arguments and a fragment of printf *)

(** A variadic argument after the default promotions: an [int] (also what
    a [char] is passed as) or a [const char *], given by the characters it
    points at. *)
Inductive arg :=
| ArgInt (n : Z)
| ArgStr (s : list ascii).

Definition va_list := list arg.

Definition to_int32 (n : Z) : Z := (n + 2^31) mod 2^32 - 2^31.
Definition to_uint32 (n : Z) : Z := n mod 2^32.

Definition decimal (n : Z) : list ascii :=
  chars (DecimalString.NilZero.string_of_int (Z.to_int n)).

Definition hexadecimal (n : Z) : list ascii :=
  chars (HexadecimalString.NilZero.string_of_uint (N.to_hex_uint (Z.to_N n))).

(** The text one conversion specifier produces for one argument; [None]
    for a specifier outside the fragment or an argument of the wrong type. *)
Definition conversion (d : ascii) (a : arg) : option (list ascii) :=
  match a with
  | ArgInt n =>
    if (Ascii.eqb d "d" || Ascii.eqb d "i")%bool then Some (decimal (to_int32 n))
    else if Ascii.eqb d "u" then Some (decimal (to_uint32 n))
    else if Ascii.eqb d "x" then Some (hexadecimal (to_uint32 n))
    else if Ascii.eqb d "c" then Some [ascii_of_N (Z.to_N (n mod 256))]
    else None
  | ArgStr s =>
    if Ascii.eqb d "s" then Some (until_nul s) else None
  end.

(** The printf-style expansion of a format and its arguments, for the
    conversions [%d %i %u %x %c %s] and [%%] without flags, width or
    precision.  The format ends at its terminator; [None] where C leaves
    the behaviour undefined (a missing or ill-typed argument, an
    incomplete specifier) or the specifier is outside the fragment. *)
Fixpoint printf (fmt : list ascii) (ap : va_list) : option (list ascii) :=
  match fmt with
  | [] => Some []
  | c :: fmt' =>
    if Ascii.eqb c NUL then Some []
    else if Ascii.eqb c "%" then
      match fmt' with
      | [] => None
      | d :: fmt'' =>
        if Ascii.eqb d "%" then cons d <$> printf fmt'' ap
        else
          match ap with
          | [] => None
          | a :: ap' =>
            match conversion d a with
            | None => None
            | Some txt => app txt <$> printf fmt'' ap'
            end
          end
      end
    else cons c <$> printf fmt' ap
  end.

(** ** The C library, the sink and the bridge *)

Definition capacity : Z := 65536.

Section Bridge.

(** The formatted-output engine of the C library: the full text a format
    and its arguments expand to, or [None] where the C standard leaves
    the call undefined.  [printf] above is one instance. *)
Variable expansion : list ascii -> va_list -> option (list ascii).

(** [malloc(size)]: the allocator's next decision; on success a block
    that is not live yet becomes live with indeterminate contents. *)
Definition malloc (size : Z) : M val := fun w =>
  match next_alloc w with
  | Some junk =>
    let b := fresh (dom (heap w)) in
    Done (Ptr b 0)
         {| heap := <[b := map junk (seq 0 (Z.to_nat size))]> (heap w);
            oracle := tail (oracle w);
            trace := trace w ++ [EvMalloc size (Ptr b 0)] |}
  | None =>
    Done NULL
         {| heap := heap w;
            oracle := tail (oracle w);
            trace := trace w ++ [EvMalloc size NULL] |}
  end.

(** [vsnprintf(s, n, fmt, ap)]: stores at most [n - 1] characters of the
    expansion followed by a terminator, nothing when [n] is zero, and
    returns the length of the whole expansion. *)
Definition vsnprintf (s : val) (n : Z) (fmt : list ascii) (ap : va_list)
  : M Z := fun w =>
  match expansion fmt ap with
  | None => Undefined
  | Some out =>
    let ret := Z.of_nat (length out) in
    if n <=? 0 then Done ret (log_call (EvVsnprintf s n ret) w)
    else
      match store (heap w) s (take (Z.to_nat (n - 1)) out ++ [NUL]) with
      | None => Undefined
      | Some h =>
        Done ret {| heap := h; oracle := oracle w;
                    trace := trace w ++ [EvVsnprintf s n ret] |}
      end
  end.

(** Modelled from the spec: the host sink [jxl_oxide_ffmpeg_log], of
    which the source holds the declaration only, is a function taking
    the triple (context, level, message text) and returning nothing.  It
    reads the message as the C string behind [line] and is recorded with
    what it received. *)
Definition jxl_oxide_ffmpeg_log (avcl : val) (level : Z) (line : val)
  : M unit := fun w =>
  match load_cstring (heap w) line with
  | None => Undefined
  | Some text => Done tt (log_call (EvLog avcl level line text) w)
  end.

(** [free(p)]: nothing for a null pointer; otherwise [p] must be the
    start of a live block, which stops being live. *)
Definition free (p : val) : M unit := fun w =>
  match p with
  | NULL => Done tt (log_call (EvFree p) w)
  | Ptr b ofs =>
    match heap w !! b with
    | None => Undefined
    | Some _ =>
      if ofs =? 0
      then Done tt {| heap := delete b (heap w); oracle := oracle w;
                      trace := trace w ++ [EvFree p] |}
      else Undefined
    end
  end.

(** The bridge, statement by statement. *)
Definition jxl_oxide_ffmpeg_log_c
    (avcl : val) (level : Z) (fmt : list ascii) (vl : va_list) : M unit :=
  buf ← malloc 65536;
  if is_null buf then mret tt
  else
    vsnprintf buf 65536 fmt vl;;
    jxl_oxide_ffmpeg_log avcl level buf;;
    free buf.

End Bridge.

(** ** Observations on a run *)

(** The calls made between two worlds of one run. *)
Definition emitted (w w' : world) : list event :=
  drop (length (trace w)) (trace w').

(** The triples (context, level, message) the sink received. *)
Definition sink_calls (t : list event) : list (val * Z * list ascii) :=
  flat_map (fun e => match e with
                     | EvLog avcl level _ text => [(avcl, level, text)]
                     | _ => []
                     end) t.

(** The blocks obtained and the pointers released. *)
Definition allocations (t : list event) : list val :=
  flat_map (fun e => match e with
                     | EvMalloc _ (Ptr b ofs) => [Ptr b ofs]
                     | _ => []
                     end) t.

Definition releases (t : list event) : list val :=
  flat_map (fun e => match e with EvFree p => [p] | _ => [] end) t.

(** Whether the allocator grants the next request. *)
Definition alloc_succeeds (w : world) : bool :=
  match next_alloc w with Some _ => true | None => false end.

(** The pointer a successful [malloc] returns in [w]. *)
Definition buffer_of (w : world) : val := Ptr (fresh (dom (heap w))) 0.

(** The text the sink reads when the expansion is [out]: what fits the
    buffer before the terminator, read as a C string. *)
Definition message_of (out : list ascii) : list ascii :=
  until_nul (take (Z.to_nat (capacity - 1)) out).

(** What one run forwards to the sink; [None] when the run is undefined. *)
Definition forwarded (m : M unit) (w : world)
  : option (list (val * Z * list ascii)) :=
  match m w with
  | Done _ w' => Some (sink_calls (emitted w w'))
  | Undefined => None
  end.

(** A world to run examples in: an empty heap, no calls yet, and an
    allocator that grants one request and refuses the next. *)
Definition sample_world : world :=
  {| heap := ∅; oracle := [Some (fun _ => "x"%char); None]; trace := [] |}.

(** A world whose allocator refuses. *)
Definition starved_world : world :=
  {| heap := ∅; oracle := [None]; trace := [] |}.

(** A world with a live block and earlier calls, whose allocator grants
    a block with other initial contents. *)
Definition busy_world : world :=
  {| heap := {[ 1%positive := chars "left over" ]};
     oracle := [Some (fun _ => "y"%char)];
     trace := [EvMalloc 9 (Ptr 1 0)] |}.

(** A text longer than the buffer: 70000 characters. *)
Definition long_text : list ascii := repeat "x"%char (Z.to_nat 70000).

(** ** Successive invocations *)

(** The arguments of one invocation of the callback. *)
Record call := Call {
  call_avcl : val;
  call_level : Z;
  call_fmt : list ascii;
  call_vl : va_list
}.

(** One invocation of the bridge on the arguments [c]. *)
Definition invoke (expansion : list ascii -> va_list -> option (list ascii))
    (c : call) : M unit :=
  jxl_oxide_ffmpeg_log_c expansion
    (call_avcl c) (call_level c) (call_fmt c) (call_vl c).

(** The triple the sink is handed for [c] when its format expands to
    [out]. *)
Definition line_of (c : call) (out : list ascii) : val * Z * list ascii :=
  (call_avcl c, call_level c, message_of out).

(** The elements of [l] whose allocation is granted, when the allocator
    answers the successive requests by [ds]; an exhausted allocator
    refuses. *)
Fixpoint granted {A : Type} (ds : list (option (nat -> ascii))) (l : list A)
  {struct l} : list A :=
  match l with
  | [] => []
  | x :: l' =>
    match ds with
    | Some _ :: ds' => x :: granted ds' l'
    | None :: ds' => granted ds' l'
    | [] => []
    end
  end.

(** A text that fills the buffer exactly: 65535 characters. *)
Definition full_text : list ascii := repeat "x"%char (Z.to_nat 65535).

(** ** C strings *)

Lemma strnul_app_nul (l rest : list ascii) :
  strnul (l ++ NUL :: rest) = Some (until_nul l).
Proof.
  induction l as [|c l IH]; [reflexivity|].
  change (strnul ((c :: l) ++ NUL :: rest))
    with (if Ascii.eqb c NUL then Some [] else cons c <$> strnul (l ++ NUL :: rest)).
  rewrite IH. simpl. by destruct (Ascii.eqb c NUL).
Qed.

Lemma until_nul_no_nul (l : list ascii) : NUL ∉ l -> until_nul l = l.
Proof.
  induction l as [|c l IH]; intros Hl; [reflexivity|].
  simpl. destruct (Ascii.eqb_spec c NUL) as [Hc|_].
  - exfalso. apply Hl. rewrite Hc. left.
  - f_equal. apply IH. intros ?. apply Hl. by right.
Qed.

Lemma until_nul_clean (l : list ascii) : NUL ∉ until_nul l.
Proof.
  induction l as [|c l IH]; simpl; [apply not_elem_of_nil|].
  destruct (Ascii.eqb_spec c NUL) as [Hc|Hc]; [apply not_elem_of_nil|].
  apply not_elem_of_cons. split; [congruence | exact IH].
Qed.

Lemma until_nul_take (n : nat) (l : list ascii) :
  until_nul (take n l) = take n (until_nul l).
Proof.
  revert n; induction l as [|c l IH]; intros [|n]; try reflexivity.
  simpl. destruct (Ascii.eqb c NUL); [reflexivity|]. simpl. by rewrite IH.
Qed.

Lemma until_nul_length (l : list ascii) :
  (length (until_nul l) <= length l)%nat.
Proof.
  induction l as [|c l IH]; simpl; [lia|].
  destruct (Ascii.eqb c NUL); simpl; lia.
Qed.

(** ** The heap *)

Lemma store_start (h : gmap positive (list ascii)) b old bs :
  h !! b = Some old ->
  (length bs <= length old)%nat ->
  store h (Ptr b 0) bs = Some (<[b := bs ++ drop (length bs) old]> h).
Proof.
  intros Hb Hlen. unfold store. rewrite Hb.
  replace (0 + Z.of_nat (length bs) <=? Z.of_nat (length old)) with true
    by (symmetry; apply Z.leb_le; lia).
  reflexivity.
Qed.

Lemma load_cstring_start (h : gmap positive (list ascii)) b l rest :
  h !! b = Some (l ++ NUL :: rest) ->
  load_cstring h (Ptr b 0) = Some (until_nul l).
Proof.
  intros Hb. unfold load_cstring. rewrite Hb. simpl.
  apply strnul_app_nul.
Qed.

Lemma fresh_block_unused (h : gmap positive (list ascii)) :
  h !! fresh (dom h) = None.
Proof. apply not_elem_of_dom, is_fresh. Qed.

Lemma bind_done {A B : Type} (m : M A) (f : A -> M B) (w w' : world) (a : A) :
  m w = Done a w' -> (m ≫= f) w = f a w'.
Proof. intros H. unfold mbind, M_bind. by rewrite H. Qed.

Lemma emitted_app (w w' : world) (es : list event) :
  trace w' = trace w ++ es -> emitted w w' = es.
Proof. intros H. unfold emitted. rewrite H. apply drop_app_length. Qed.

(** ** The runs of the bridge *)

Section BridgeRuns.

Variable expansion : list ascii -> va_list -> option (list ascii).

Lemma malloc_failure (size : Z) (w : world) :
  next_alloc w = None ->
  malloc size w =
  Done NULL {| heap := heap w; oracle := tail (oracle w);
               trace := trace w ++ [EvMalloc size NULL] |}.
Proof. intros H. unfold malloc. by rewrite H. Qed.

Lemma malloc_success (size : Z) (w : world) junk :
  next_alloc w = Some junk ->
  malloc size w =
  Done (buffer_of w)
       {| heap := <[fresh (dom (heap w)) := map junk (seq 0 (Z.to_nat size))]> (heap w);
          oracle := tail (oracle w);
          trace := trace w ++ [EvMalloc size (buffer_of w)] |}.
Proof. intros H. unfold malloc. by rewrite H. Qed.

(** [vsnprintf] into the start of a live block of at least [n]
    characters. *)
Lemma vsnprintf_in_bounds (w : world) b old n fmt ap out :
  expansion fmt ap = Some out ->
  heap w !! b = Some old ->
  0 < n <= Z.of_nat (length old) ->
  let text := take (Z.to_nat (n - 1)) out in
  vsnprintf expansion (Ptr b 0) n fmt ap w =
  Done (Z.of_nat (length out))
       {| heap := <[b := text ++ NUL :: drop (S (length text)) old]> (heap w);
          oracle := oracle w;
          trace := trace w ++ [EvVsnprintf (Ptr b 0) n (Z.of_nat (length out))] |}.
Proof.
  intros Hout Hb Hn text. unfold vsnprintf. rewrite Hout.
  replace (n <=? 0) with false by (symmetry; apply Z.leb_gt; lia).
  fold text.
  assert (Hlen : (length (text ++ [NUL]) <= length old)%nat).
  { rewrite length_app. unfold text. rewrite length_take. simpl. lia. }
  rewrite (store_start _ _ _ _ Hb Hlen).
  rewrite length_app, <- app_assoc. simpl.
  by rewrite Nat.add_1_r.
Qed.

(** The state in which the sink is called: the buffer holds what fits
    of the expansion, then the terminator, then what is left of the
    block's initial contents; no other block has changed. *)
Lemma render_success fmt vl (w : world) junk out :
  next_alloc w = Some junk ->
  expansion fmt vl = Some out ->
  let text := take (Z.to_nat (capacity - 1)) out in
  (malloc 65536 ≫= fun buf => vsnprintf expansion buf 65536 fmt vl) w =
  Done (Z.of_nat (length out))
       {| heap := <[fresh (dom (heap w)) :=
                     text ++ NUL :: drop (S (length text))
                                      (map junk (seq 0 (Z.to_nat 65536)))]> (heap w);
          oracle := tail (oracle w);
          trace := trace w ++
            [EvMalloc 65536 (buffer_of w);
             EvVsnprintf (buffer_of w) 65536 (Z.of_nat (length out))] |}.
Proof.
  intros Halloc Hout text. unfold mbind, M_bind.
  rewrite (malloc_success _ _ _ Halloc). unfold buffer_of.
  set (b := fresh (dom (heap w))).
  set (old := map junk (seq 0 (Z.to_nat 65536))).
  assert (Hold : length old = Z.to_nat 65536)
    by (unfold old; by rewrite length_map, length_seq).
  erewrite (vsnprintf_in_bounds _ b old 65536 fmt vl out Hout);
    [| apply lookup_insert_eq | lia].
  cbn [heap oracle trace].
  rewrite insert_insert_eq, <- app_assoc. reflexivity.
Qed.

(** A run in which the allocator fails. *)
Lemma run_failure avcl level fmt vl (w : world) :
  next_alloc w = None ->
  jxl_oxide_ffmpeg_log_c expansion avcl level fmt vl w =
  Done tt {| heap := heap w; oracle := tail (oracle w);
             trace := trace w ++ [EvMalloc 65536 NULL] |}.
Proof.
  intros H. unfold jxl_oxide_ffmpeg_log_c, mbind, M_bind.
  by rewrite (malloc_failure _ _ H).
Qed.

(** The bridge after a successful allocation is the rendering, then the
    sink, then the release. *)
Lemma run_after_alloc avcl level fmt vl (w : world) junk :
  next_alloc w = Some junk ->
  jxl_oxide_ffmpeg_log_c expansion avcl level fmt vl w =
  ((malloc 65536 ≫= fun buf => vsnprintf expansion buf 65536 fmt vl);;
   jxl_oxide_ffmpeg_log avcl level (buffer_of w);;
   free (buffer_of w)) w.
Proof.
  intros Halloc. unfold jxl_oxide_ffmpeg_log_c, mbind, M_bind.
  by rewrite (malloc_success _ _ _ Halloc).
Qed.

(** A run in which the allocator succeeds and the format is valid. *)
Lemma run_success avcl level fmt vl (w : world) junk out :
  next_alloc w = Some junk ->
  expansion fmt vl = Some out ->
  jxl_oxide_ffmpeg_log_c expansion avcl level fmt vl w =
  Done tt {| heap := heap w; oracle := tail (oracle w);
             trace := trace w ++
               [EvMalloc 65536 (buffer_of w);
                EvVsnprintf (buffer_of w) 65536 (Z.of_nat (length out));
                EvLog avcl level (buffer_of w) (message_of out);
                EvFree (buffer_of w)] |}.
Proof.
  intros Halloc Hout.
  rewrite (run_after_alloc _ _ _ _ _ _ Halloc).
  rewrite (bind_done _ _ _ _ _ (render_success _ _ _ _ _ Halloc Hout)).
  unfold mbind, M_bind, jxl_oxide_ffmpeg_log, buffer_of.
  cbn [heap oracle trace].
  erewrite load_cstring_start by apply lookup_insert_eq.
  unfold log_call, free. cbn [heap oracle trace].
  rewrite lookup_insert_eq.
  replace (0 =? 0) with true by reflexivity.
  rewrite delete_insert_eq, delete_id by apply fresh_block_unused.
  rewrite <- !app_assoc. reflexivity.
Qed.

(** A run in which the allocator succeeds and the format is not valid. *)
Lemma run_undefined avcl level fmt vl (w : world) junk :
  next_alloc w = Some junk ->
  expansion fmt vl = None ->
  jxl_oxide_ffmpeg_log_c expansion avcl level fmt vl w = Undefined.
Proof.
  intros Halloc Hout.
  unfold jxl_oxide_ffmpeg_log_c, mbind, M_bind.
  rewrite (malloc_success _ _ _ Halloc). unfold buffer_of, is_null, vsnprintf.
  by rewrite Hout.
Qed.

(** The calls of a run, by the allocator's decision. *)
Lemma run_valid avcl level fmt vl (w : world) out :
  expansion fmt vl = Some out ->
  exists w',
    jxl_oxide_ffmpeg_log_c expansion avcl level fmt vl w = Done tt w' /\
    heap w' = heap w /\
    oracle w' = tail (oracle w) /\
    emitted w w' =
      if alloc_succeeds w
      then [EvMalloc 65536 (buffer_of w);
            EvVsnprintf (buffer_of w) 65536 (Z.of_nat (length out));
            EvLog avcl level (buffer_of w) (message_of out);
            EvFree (buffer_of w)]
      else [EvMalloc 65536 NULL].
Proof.
  intros Hout. unfold alloc_succeeds.
  destruct (next_alloc w) as [junk|] eqn:Halloc.
  - eexists. split; [by apply run_success with (junk := junk)|].
    repeat split. by apply emitted_app.
  - eexists. split; [by apply run_failure|].
    repeat split. by apply emitted_app.
Qed.

(** ** The claims *)

(** C1, amended.  When the allocation succeeds and the expansion of the
    format against the arguments has at most [capacity - 1] characters,
    the sink is handed the expansion read as a C string: the expansion
    up to its first [NUL] character, and so exactly the expansion when
    it holds no [NUL] character. *)
Theorem forwarded_message_is_expansion
    avcl level fmt vl (w : world) junk out :
  next_alloc w = Some junk ->
  expansion fmt vl = Some out ->
  Z.of_nat (length out) <= capacity - 1 ->
  exists w',
    jxl_oxide_ffmpeg_log_c expansion avcl level fmt vl w = Done tt w' /\
    sink_calls (emitted w w') = [(avcl, level, until_nul out)] /\
    (NUL ∉ out -> sink_calls (emitted w w') = [(avcl, level, out)]).
Proof.
  intros Halloc Hout Hlen.
  eexists. split; [exact (run_success _ _ _ _ _ _ _ Halloc Hout)|].
  erewrite emitted_app by reflexivity.
  assert (Hmsg : message_of out = until_nul out).
  { unfold message_of. rewrite take_ge; [reflexivity | lia]. }
  cbn [sink_calls flat_map app]. rewrite Hmsg.
  split; [reflexivity|]. intros Hnul. by rewrite until_nul_no_nul.
Qed.


(** C3.  When the allocation fails, whatever the format and the
    arguments, the bridge returns normally, the sink is not called, and
    the only call made is the failed [malloc]: nothing is rendered,
    nothing is released, the heap is as it was. *)
Theorem allocation_failure_is_silent avcl level fmt vl (w : world) :
  next_alloc w = None ->
  exists w',
    jxl_oxide_ffmpeg_log_c expansion avcl level fmt vl w = Done tt w' /\
    sink_calls (emitted w w') = [] /\
    emitted w w' = [EvMalloc 65536 NULL] /\
    heap w' = heap w.
Proof.
  intros Halloc.
  eexists. split; [exact (run_failure _ _ _ _ _ Halloc)|].
  erewrite emitted_app by reflexivity. by repeat split.
Qed.

(** C4.  Whatever the context pointer (null included) and whatever the
    integer level, every call of the sink carries exactly the context
    and the level the bridge received: one such call when the
    allocation succeeds, none when it fails. *)
Theorem context_and_level_pass_through
    avcl level fmt vl (w : world) out :
  expansion fmt vl = Some out ->
  exists w',
    jxl_oxide_ffmpeg_log_c expansion avcl level fmt vl w = Done tt w' /\
    map fst (sink_calls (emitted w w')) =
      if alloc_succeeds w then [(avcl, level)] else [].
Proof.
  intros Hout.
  destruct (run_valid avcl level fmt vl w out Hout) as (w' & Hrun & _ & _ & Hev).
  exists w'. split; [exact Hrun|]. rewrite Hev.
  by destruct (alloc_succeeds w).
Qed.

(** C5.  One invocation calls the sink exactly once when the allocation
    succeeds and not at all when it fails; never more than once. *)
Theorem sink_called_once_or_never avcl level fmt vl (w : world) out :
  expansion fmt vl = Some out ->
  exists w',
    jxl_oxide_ffmpeg_log_c expansion avcl level fmt vl w = Done tt w' /\
    length (sink_calls (emitted w w')) =
      (if alloc_succeeds w then 1 else 0)%nat /\
    (length (sink_calls (emitted w w')) <= 1)%nat.
Proof.
  intros Hout.
  destruct (run_valid avcl level fmt vl w out Hout) as (w' & Hrun & _ & _ & Hev).
  exists w'. split; [exact Hrun|]. rewrite Hev.
  destruct (alloc_succeeds w); simpl; lia.
Qed.

(** C6.  One invocation releases exactly what it allocated: the one
    buffer, once, when the allocation succeeds, and nothing when it
    fails; afterwards the heap is what it was before the call, so no
    block is leaked and none is released twice. *)
Theorem buffer_released_exactly_once avcl level fmt vl (w : world) out :
  expansion fmt vl = Some out ->
  exists w',
    jxl_oxide_ffmpeg_log_c expansion avcl level fmt vl w = Done tt w' /\
    allocations (emitted w w') =
      (if alloc_succeeds w then [buffer_of w] else []) /\
    releases (emitted w w') = allocations (emitted w w') /\
    heap w' = heap w.
Proof.
  intros Hout.
  destruct (run_valid avcl level fmt vl w out Hout) as (w' & Hrun & Hheap & _ & Hev).
  exists w'. split; [exact Hrun|]. rewrite Hev.
  by destruct (alloc_succeeds w).
Qed.

(** C7.  What an invocation forwards depends only on its four arguments
    and on whether its allocation succeeds: run in any two worlds,
    whatever their heaps, their earlier calls, the block the allocator
    picks and the initial contents of that block, two invocations with
    the same arguments and the same allocation outcome forward the same
    triples (or are both undefined); and a run leaves the heap as it
    found it. *)
Theorem stateless_and_deterministic
    avcl level fmt vl (w1 w2 : world) :
  alloc_succeeds w1 = alloc_succeeds w2 ->
  forwarded (jxl_oxide_ffmpeg_log_c expansion avcl level fmt vl) w1 =
  forwarded (jxl_oxide_ffmpeg_log_c expansion avcl level fmt vl) w2 /\
  (forall w1', jxl_oxide_ffmpeg_log_c expansion avcl level fmt vl w1
               = Done tt w1' -> heap w1' = heap w1).
Proof.
  intros Hsame. unfold forwarded, alloc_succeeds in *.
  destruct (next_alloc w1) as [j1|] eqn:H1;
    destruct (next_alloc w2) as [j2|] eqn:H2; try discriminate.
  - destruct (expansion fmt vl) as [out|] eqn:Hout.
    + rewrite (run_success _ _ _ _ _ _ _ H1 Hout),
              (run_success _ _ _ _ _ _ _ H2 Hout).
      split.
      * erewrite !emitted_app by reflexivity. reflexivity.
      * intros w1' [= <-]. reflexivity.
    + rewrite (run_undefined _ _ _ _ _ _ H1 Hout),
              (run_undefined _ _ _ _ _ _ H2 Hout).
      split; [reflexivity | discriminate].
  - rewrite (run_failure _ _ _ _ _ H1), (run_failure _ _ _ _ _ H2).
    split.
    + erewrite !emitted_app by reflexivity. reflexivity.
    + intros w1' [= <-]. reflexivity.
Qed.


(** C9.  When the allocation succeeds, the buffer is released after the
    sink has returned and not before: up to the return of the sink
    nothing has been released and the message is readable through the
    pointer the sink was given; the release is the next and last call;
    after it the pointer dangles, so that reading the message through
    it again is undefined. *)
Theorem buffer_released_after_forwarding
    avcl level fmt vl (w : world) junk out :
  next_alloc w = Some junk ->
  expansion fmt vl = Some out ->
  exists w2 w3 w',
    (malloc 65536 ≫= fun buf => vsnprintf expansion buf 65536 fmt vl) w
      = Done (Z.of_nat (length out)) w2 /\
    jxl_oxide_ffmpeg_log avcl level (buffer_of w) w2 = Done tt w3 /\
    free (buffer_of w) w3 = Done tt w' /\
    jxl_oxide_ffmpeg_log_c expansion avcl level fmt vl w = Done tt w' /\
    releases (emitted w w3) = [] /\
    load_cstring (heap w3) (buffer_of w) = Some (message_of out) /\
    emitted w3 w' = [EvFree (buffer_of w)] /\
    load_cstring (heap w') (buffer_of w) = None /\
    jxl_oxide_ffmpeg_log avcl level (buffer_of w) w' = Undefined.
Proof.
  intros Halloc Hout.
  pose proof (render_success fmt vl w junk out Halloc Hout) as Hrender.
  cbv zeta in Hrender.
  set (w2 := {| heap := _ |}) in Hrender.
  assert (Hload : load_cstring (heap w2) (buffer_of w) = Some (message_of out)).
  { unfold buffer_of, w2. cbn [heap].
    erewrite load_cstring_start by apply lookup_insert_eq. reflexivity. }
  assert (Hsink : jxl_oxide_ffmpeg_log avcl level (buffer_of w) w2
                  = Done tt (log_call (EvLog avcl level (buffer_of w) (message_of out)) w2)).
  { unfold jxl_oxide_ffmpeg_log. by rewrite Hload. }
  set (w3 := log_call _ w2) in Hsink.
  assert (Hfree : free (buffer_of w) w3
                  = Done tt {| heap := heap w; oracle := tail (oracle w);
                               trace := trace w3 ++ [EvFree (buffer_of w)] |}).
  { unfold free, buffer_of, w3, log_call, w2. cbn [heap oracle trace].
    rewrite lookup_insert_eq.
    replace (0 =? 0) with true by reflexivity.
    by rewrite delete_insert_eq, delete_id by apply fresh_block_unused. }
  assert (Hgone : load_cstring (heap w) (buffer_of w) = None).
  { unfold load_cstring, buffer_of. by rewrite fresh_block_unused. }
  eexists w2, w3, _.
  split; [exact Hrender|]. split; [exact Hsink|]. split; [exact Hfree|].
  split.
  { rewrite (run_after_alloc _ _ _ _ _ _ Halloc).
    rewrite (bind_done _ _ _ _ _ Hrender).
    rewrite (bind_done _ _ _ _ _ Hsink). exact Hfree. }
  split.
  { assert (Htrace : trace w3 = trace w ++
              [EvMalloc 65536 (buffer_of w);
               EvVsnprintf (buffer_of w) 65536 (Z.of_nat (length out));
               EvLog avcl level (buffer_of w) (message_of out)]).
    { unfold w3, log_call, w2. cbn [trace]. by rewrite <- app_assoc. }
    by rewrite (emitted_app _ _ _ Htrace). }
  split; [exact Hload|].
  split; [by apply emitted_app|].
  split; [exact Hgone|].
  unfold jxl_oxide_ffmpeg_log. cbn [heap]. by rewrite Hgone.
Qed.

End BridgeRuns.

(** ** The printf fragment *)

Lemma printf_empty (vl : va_list) : printf [] vl = Some [].
Proof. reflexivity. Qed.

Example printf_frames_dropped :
  printf (chars "decode error: %d frames dropped") [ArgInt 42]
  = Some (chars "decode error: 42 frames dropped").
Proof. reflexivity. Qed.

Example printf_fragment :
  printf (chars "%i|%u|%x|%s|%c|%%") [ArgInt (-7); ArgInt (-1); ArgInt 255;
                                       ArgStr (chars "ok"); ArgInt 65]
  = Some (chars "-7|4294967295|ff|ok|A|%").
Proof. reflexivity. Qed.

Example printf_missing_argument : printf (chars "%d") [] = None.
Proof. reflexivity. Qed.

(** C10.  For the empty format and any arguments, when the allocation
    succeeds the rendering stores the terminator at the start of the
    buffer, and the sink is called exactly once, with the context and the
    level received and the empty message, read through the buffer as a
    terminated C string. *)
Theorem empty_format_is_forwarded avcl level vl (w : world) junk :
  next_alloc w = Some junk ->
  exists w2 w',
    (malloc 65536 ≫= fun buf => vsnprintf printf buf 65536 [] vl) w
      = Done 0 w2 /\
    load_cstring (heap w2) (buffer_of w) = Some [] /\
    jxl_oxide_ffmpeg_log_c printf avcl level [] vl w = Done tt w' /\
    sink_calls (emitted w w') = [(avcl, level, [])].
Proof.
  intros Halloc.
  pose proof (render_success printf [] vl w junk [] Halloc (printf_empty vl))
    as Hrender.
  cbv zeta in Hrender. set (w2 := {| heap := _ |}) in Hrender.
  eexists w2, _.
  split; [exact Hrender|].
  split.
  { unfold buffer_of, w2. cbn [heap].
    erewrite load_cstring_start by apply lookup_insert_eq.
    by rewrite take_nil. }
  split; [exact (run_success printf _ _ _ _ _ _ _ Halloc (printf_empty vl))|].
  by erewrite emitted_app by reflexivity.
Qed.

(** ** The claims at concrete inputs *)

Lemma forwarded_message_is_expansion_witness :
  exists w',
    jxl_oxide_ffmpeg_log_c printf NULL 16
      (chars "decode error: %d frames dropped") [ArgInt 42] sample_world
      = Done tt w' /\
    sink_calls (emitted sample_world w')
      = [(NULL, 16, until_nul (chars "decode error: 42 frames dropped"))] /\
    (NUL ∉ chars "decode error: 42 frames dropped" ->
     sink_calls (emitted sample_world w')
       = [(NULL, 16, chars "decode error: 42 frames dropped")]).
Proof.
  apply (forwarded_message_is_expansion printf NULL 16
           (chars "decode error: %d frames dropped") [ArgInt 42]
           sample_world (fun _ => "x"%char)
           (chars "decode error: 42 frames dropped"));
    [reflexivity | reflexivity | vm_compute; discriminate].
Defined.

(** The claim C1 as the specification words it fails when the expansion
    holds a [NUL] character: ["a%cb"] with the argument [0] expands to the
    three characters [a], [NUL], [b], and the sink is handed ["a"]. *)
Lemma embedded_nul_shortens_message :
  next_alloc sample_world = Some (fun _ => "x"%char) /\
  printf (chars "a%cb") [ArgInt 0] = Some ["a"%char; NUL; "b"%char] /\
  Z.of_nat (length ["a"%char; NUL; "b"%char]) <= capacity - 1 /\
  exists w',
    jxl_oxide_ffmpeg_log_c printf NULL 16 (chars "a%cb") [ArgInt 0] sample_world
      = Done tt w' /\
    sink_calls (emitted sample_world w') = [(NULL, 16, ["a"%char])] /\
    sink_calls (emitted sample_world w')
      <> [(NULL, 16, ["a"%char; NUL; "b"%char])].
Proof.
  split; [reflexivity|]. split; [reflexivity|].
  split; [vm_compute; discriminate|].
  eexists. split.
  - apply (run_success printf NULL 16 (chars "a%cb") [ArgInt 0] sample_world
             (fun _ => "x"%char) ["a"%char; NUL; "b"%char]); reflexivity.
  - erewrite emitted_app by reflexivity.
    split; [reflexivity | discriminate].
Qed.



Lemma allocation_failure_is_silent_witness :
  exists w',
    jxl_oxide_ffmpeg_log_c printf (Ptr 7 0) 16
      (chars "decode error: %d frames dropped") [ArgInt 42] starved_world
      = Done tt w' /\
    sink_calls (emitted starved_world w') = [] /\
    emitted starved_world w' = [EvMalloc 65536 NULL] /\
    heap w' = heap starved_world.
Proof.
  apply (allocation_failure_is_silent printf (Ptr 7 0) 16
           (chars "decode error: %d frames dropped") [ArgInt 42] starved_world).
  reflexivity.
Defined.

Lemma context_and_level_pass_through_witness :
  exists w',
    jxl_oxide_ffmpeg_log_c printf NULL (- 2 ^ 31) (chars "%s") [ArgStr (chars "hi")]
      sample_world = Done tt w' /\
    map fst (sink_calls (emitted sample_world w')) =
      if alloc_succeeds sample_world then [(NULL, - 2 ^ 31)] else [].
Proof.
  apply (context_and_level_pass_through printf NULL (- 2 ^ 31) (chars "%s")
           [ArgStr (chars "hi")] sample_world (chars "hi")).
  reflexivity.
Defined.

Lemma sink_called_once_or_never_witness :
  exists w',
    jxl_oxide_ffmpeg_log_c printf (Ptr 7 0) 32 (chars "%u%%") [ArgInt 50]
      busy_world = Done tt w' /\
    length (sink_calls (emitted busy_world w')) =
      (if alloc_succeeds busy_world then 1 else 0)%nat /\
    (length (sink_calls (emitted busy_world w')) <= 1)%nat.
Proof.
  apply (sink_called_once_or_never printf (Ptr 7 0) 32 (chars "%u%%")
           [ArgInt 50] busy_world (chars "50%")).
  reflexivity.
Defined.

Lemma buffer_released_exactly_once_witness :
  exists w',
    jxl_oxide_ffmpeg_log_c printf (Ptr 7 0) 24 (chars "%x") [ArgInt 255]
      busy_world = Done tt w' /\
    allocations (emitted busy_world w') =
      (if alloc_succeeds busy_world then [buffer_of busy_world] else []) /\
    releases (emitted busy_world w') = allocations (emitted busy_world w') /\
    heap w' = heap busy_world.
Proof.
  apply (buffer_released_exactly_once printf (Ptr 7 0) 24 (chars "%x")
           [ArgInt 255] busy_world (chars "ff")).
  reflexivity.
Defined.

Lemma stateless_and_deterministic_witness :
  forwarded (jxl_oxide_ffmpeg_log_c printf NULL 16
               (chars "decode error: %d frames dropped") [ArgInt 42]) sample_world =
  forwarded (jxl_oxide_ffmpeg_log_c printf NULL 16
               (chars "decode error: %d frames dropped") [ArgInt 42]) busy_world /\
  (forall w1',
      jxl_oxide_ffmpeg_log_c printf NULL 16
        (chars "decode error: %d frames dropped") [ArgInt 42] sample_world
      = Done tt w1' -> heap w1' = heap sample_world).
Proof.
  apply (stateless_and_deterministic printf NULL 16
           (chars "decode error: %d frames dropped") [ArgInt 42]
           sample_world busy_world).
  reflexivity.
Defined.


Lemma buffer_released_after_forwarding_witness :
  exists w2 w3 w',
    (malloc 65536 ≫= fun buf =>
       vsnprintf printf buf 65536 (chars "%c%c") [ArgInt 111; ArgInt 107]) busy_world
      = Done (Z.of_nat (length (chars "ok"))) w2 /\
    jxl_oxide_ffmpeg_log (Ptr 7 0) 48 (buffer_of busy_world) w2 = Done tt w3 /\
    free (buffer_of busy_world) w3 = Done tt w' /\
    jxl_oxide_ffmpeg_log_c printf (Ptr 7 0) 48 (chars "%c%c")
      [ArgInt 111; ArgInt 107] busy_world = Done tt w' /\
    releases (emitted busy_world w3) = [] /\
    load_cstring (heap w3) (buffer_of busy_world) = Some (message_of (chars "ok")) /\
    emitted w3 w' = [EvFree (buffer_of busy_world)] /\
    load_cstring (heap w') (buffer_of busy_world) = None /\
    jxl_oxide_ffmpeg_log (Ptr 7 0) 48 (buffer_of busy_world) w' = Undefined.
Proof.
  apply (buffer_released_after_forwarding printf (Ptr 7 0) 48 (chars "%c%c")
           [ArgInt 111; ArgInt 107] busy_world (fun _ => "y"%char) (chars "ok"));
    reflexivity.
Defined.

Lemma empty_format_is_forwarded_witness :
  exists w2 w',
    (malloc 65536 ≫= fun buf =>
       vsnprintf printf buf 65536 [] [ArgInt 42; ArgStr (chars "unused")]) sample_world
      = Done 0 w2 /\
    load_cstring (heap w2) (buffer_of sample_world) = Some [] /\
    jxl_oxide_ffmpeg_log_c printf (Ptr 7 0) 16 [] [ArgInt 42; ArgStr (chars "unused")]
      sample_world = Done tt w' /\
    sink_calls (emitted sample_world w') = [(Ptr 7 0, 16, [])].
Proof.
  apply (empty_format_is_forwarded (Ptr 7 0) 16 [ArgInt 42; ArgStr (chars "unused")]
           sample_world (fun _ => "x"%char)).
  reflexivity.
Defined.

(** ** Further properties of the bridge *)

Lemma sink_calls_app (s t : list event) :
  sink_calls (s ++ t) = sink_calls s ++ sink_calls t.
Proof. unfold sink_calls. apply flat_map_app. Qed.

Lemma granted_cons {A : Type} (ds : list (option (nat -> ascii))) (x : A) l :
  granted ds (x :: l) = granted ds [x] ++ granted (tail ds) l.
Proof.
  destruct ds as [|[j|] ds]; [by destruct l | reflexivity | reflexivity].
Qed.

Lemma drop_succ_tail {A : Type} (n : nat) (l : list A) :
  drop (S n) l = drop n (tail l).
Proof. destruct l; simpl; [by rewrite drop_nil | reflexivity]. Qed.




Section BridgeFurther.

Variable expansion : list ascii -> va_list -> option (list ascii).

(** One invocation with a valid format, seen from a caller: the heap is
    given back as it was, one decision of the allocator is used, and the
    calls made are appended to the trace. *)
Lemma invoke_valid (c : call) (w : world) out :
  expansion (call_fmt c) (call_vl c) = Some out ->
  exists w' es,
    invoke expansion c w = Done tt w' /\
    heap w' = heap w /\
    oracle w' = tail (oracle w) /\
    trace w' = trace w ++ es /\
    sink_calls es = granted (oracle w) [line_of c out].
Proof.
  intros Hout. unfold invoke.
  destruct (next_alloc w) as [junk|] eqn:Halloc.
  - eexists _, _. split; [exact (run_success _ _ _ _ _ _ _ _ Halloc Hout)|].
    cbn [heap oracle trace]. repeat split.
    unfold next_alloc in Halloc.
    destruct (oracle w) as [|[j|] ds]; try discriminate. reflexivity.
  - eexists _, _. split; [exact (run_failure _ _ _ _ _ _ Halloc)|].
    cbn [heap oracle trace]. repeat split.
    unfold next_alloc in Halloc.
    destruct (oracle w) as [|[j|] ds]; try discriminate; reflexivity.
Qed.

(** X1.  Whatever the length of the expansion, when the allocation
    succeeds the one message the sink is handed is the first
    [capacity - 1] characters of the expansion read as a C string; it
    never has more than [capacity - 1] characters and never holds a
    [NUL]. *)
Theorem forwarded_message_fits avcl level fmt vl (w : world) junk out :
  next_alloc w = Some junk ->
  expansion fmt vl = Some out ->
  exists w' msg,
    jxl_oxide_ffmpeg_log_c expansion avcl level fmt vl w = Done tt w' /\
    sink_calls (emitted w w') = [(avcl, level, msg)] /\
    msg = take (Z.to_nat (capacity - 1)) (until_nul out) /\
    Z.of_nat (length msg) <= capacity - 1 /\
    NUL ∉ msg.
Proof.
  intros Halloc Hout.
  exists {| heap := heap w; oracle := tail (oracle w);
            trace := trace w ++
              [EvMalloc 65536 (buffer_of w);
               EvVsnprintf (buffer_of w) 65536 (Z.of_nat (length out));
               EvLog avcl level (buffer_of w) (message_of out);
               EvFree (buffer_of w)] |}, (message_of out).
  split; [exact (run_success _ _ _ _ _ _ _ _ Halloc Hout)|].
  split; [by erewrite emitted_app by reflexivity|].
  unfold message_of.
  split; [apply until_nul_take|].
  split; [|apply until_nul_clean].
  pose proof (until_nul_length (take (Z.to_nat (capacity - 1)) out)) as Hle.
  rewrite length_take in Hle. unfold capacity in *. lia.
Qed.


(** X3.  The bridge drops the length [vsnprintf] returns, so truncation is
    not signalled: two invocations with the same context and level whose
    expansions agree on their first [capacity - 1] characters hand the
    sink the same triple, whatever the formats, the arguments and the
    characters beyond. *)
Theorem truncation_is_not_signalled
    avcl level fmt1 vl1 fmt2 vl2 (w1 w2 : world) junk1 junk2 out1 out2 :
  next_alloc w1 = Some junk1 ->
  next_alloc w2 = Some junk2 ->
  expansion fmt1 vl1 = Some out1 ->
  expansion fmt2 vl2 = Some out2 ->
  take (Z.to_nat (capacity - 1)) out1 = take (Z.to_nat (capacity - 1)) out2 ->
  forwarded (jxl_oxide_ffmpeg_log_c expansion avcl level fmt1 vl1) w1
    = Some [(avcl, level, message_of out1)] /\
  forwarded (jxl_oxide_ffmpeg_log_c expansion avcl level fmt2 vl2) w2
    = forwarded (jxl_oxide_ffmpeg_log_c expansion avcl level fmt1 vl1) w1.
Proof.
  intros H1 H2 Hout1 Hout2 Hsame. unfold forwarded.
  rewrite (run_success _ _ _ _ _ _ _ _ H1 Hout1),
          (run_success _ _ _ _ _ _ _ _ H2 Hout2).
  erewrite !emitted_app by reflexivity.
  cbn [sink_calls flat_map app]. unfold message_of. by rewrite Hsame.
Qed.

(** X4.  Invocations made one after the other, each with a valid format,
    all return; the sink receives, in the order of the invocations and
    without repetition, the line of each invocation whose allocation was
    granted, and nothing for the others: a refused allocation loses its
    own line only.  Afterwards the heap is what it was before the first
    invocation, and each invocation has used one decision of the
    allocator. *)
Theorem invocations_forward_in_order (cs : list call) (outs : list (list ascii)) :
  Forall2 (fun c out => expansion (call_fmt c) (call_vl c) = Some out) cs outs ->
  forall w : world,
  exists us w',
    mapM (invoke expansion) cs w = Done us w' /\
    heap w' = heap w /\
    oracle w' = drop (length cs) (oracle w) /\
    sink_calls (emitted w w') = granted (oracle w) (zip_with line_of cs outs).
Proof.
  intros Hvalid w.
  enough (exists us w' es,
             mapM (invoke expansion) cs w = Done us w' /\
             heap w' = heap w /\
             oracle w' = drop (length cs) (oracle w) /\
             trace w' = trace w ++ es /\
             sink_calls es = granted (oracle w) (zip_with line_of cs outs))
    as (us & w' & es & Hrun & Hheap & Hor & Htr & Hsink).
  { exists us, w'. by rewrite (emitted_app _ _ _ Htr). }
  revert w. induction Hvalid as [|c out cs outs Hout _ IH]; intros w.
  - exists [], w, []. repeat split. by rewrite app_nil_r.
  - destruct (invoke_valid c w out Hout)
      as (w1 & es1 & Hrun1 & Hheap1 & Hor1 & Htr1 & Hsink1).
    destruct (IH w1) as (us & w' & es & Hrun & Hheap & Hor & Htr & Hsink).
    exists (tt :: us), w', (es1 ++ es).
    split.
    { change (mapM (invoke expansion) (c :: cs))
        with (invoke expansion c ≫= fun y =>
              mapM (invoke expansion) cs ≫= fun k => mret (y :: k)).
      rewrite (bind_done _ _ _ _ _ Hrun1), (bind_done _ _ _ _ _ Hrun).
      reflexivity. }
    split; [congruence|].
    split.
    { rewrite Hor, Hor1. cbn [length]. by rewrite drop_succ_tail. }
    split; [by rewrite Htr, Htr1, app_assoc|].
    rewrite sink_calls_app, Hsink1, Hsink, Hor1. cbn [zip_with].
    symmetry. apply granted_cons.
Qed.

(** X5.  The bridge can be entered again while an invocation is at its
    sink call: the inner invocation, with a valid format, returns; when
    its allocation succeeds its buffer is another block than the outer
    one; and when it has returned the outer buffer is live with the outer
    message still readable, the heap being what it was at the outer sink
    call. *)
Theorem nested_invocation_keeps_outer_buffer
    fmt vl (w : world) junk out avcl' level' fmt' vl' out' :
  next_alloc w = Some junk ->
  expansion fmt vl = Some out ->
  expansion fmt' vl' = Some out' ->
  exists w2 w2',
    (malloc 65536 ≫= fun buf => vsnprintf expansion buf 65536 fmt vl) w
      = Done (Z.of_nat (length out)) w2 /\
    load_cstring (heap w2) (buffer_of w) = Some (message_of out) /\
    jxl_oxide_ffmpeg_log_c expansion avcl' level' fmt' vl' w2 = Done tt w2' /\
    buffer_of w2 <> buffer_of w /\
    length (sink_calls (emitted w2 w2'))
      = (if alloc_succeeds w2 then 1 else 0)%nat /\
    heap w2' = heap w2 /\
    load_cstring (heap w2') (buffer_of w) = Some (message_of out).
Proof.
  intros Halloc Hout Hout'.
  pose proof (render_success expansion fmt vl w junk out Halloc Hout) as Hrender.
  cbv zeta in Hrender. set (w2 := {| heap := _ |}) in Hrender.
  assert (Hload : load_cstring (heap w2) (buffer_of w) = Some (message_of out)).
  { unfold buffer_of, w2. cbn [heap].
    erewrite load_cstring_start by apply lookup_insert_eq. reflexivity. }
  destruct (run_valid expansion avcl' level' fmt' vl' w2 out' Hout')
    as (w2' & Hrun & Hheap & _ & Hev).
  exists w2, w2'.
  split; [exact Hrender|]. split; [exact Hload|]. split; [exact Hrun|].
  split.
  { unfold buffer_of. intros Heq.
    assert (Hb : fresh (dom (heap w2)) = fresh (dom (heap w)))
      by exact (f_equal (fun p => match p with
                                  | Ptr b _ => b
                                  | NULL => 1%positive
                                  end) Heq).
    apply (is_fresh (dom (heap w2))). rewrite Hb.
    apply elem_of_dom. unfold w2. cbn [heap].
    rewrite lookup_insert_eq. by eexists. }
  split; [rewrite Hev; by destruct (alloc_succeeds w2)|].
  split; [exact Hheap|]. by rewrite Hheap.
Qed.

End BridgeFurther.

(** ** The further properties at concrete inputs *)

Lemma forwarded_message_fits_witness :
  exists w' msg,
    jxl_oxide_ffmpeg_log_c printf (Ptr 7 0) 16 (chars "a%cb") [ArgInt 0] busy_world
      = Done tt w' /\
    sink_calls (emitted busy_world w') = [(Ptr 7 0, 16, msg)] /\
    msg = take (Z.to_nat (capacity - 1)) (until_nul ["a"%char; NUL; "b"%char]) /\
    Z.of_nat (length msg) <= capacity - 1 /\
    NUL ∉ msg.
Proof.
  apply (forwarded_message_fits printf (Ptr 7 0) 16 (chars "a%cb") [ArgInt 0]
           busy_world (fun _ => "y"%char) ["a"%char; NUL; "b"%char]);
    reflexivity.
Defined.


Lemma truncation_is_not_signalled_witness :
  forwarded (jxl_oxide_ffmpeg_log_c printf NULL 16 (chars "%s")
               [ArgStr long_text]) sample_world
    = Some [(NULL, 16, message_of long_text)] /\
  forwarded (jxl_oxide_ffmpeg_log_c printf NULL 16 (chars "%s")
               [ArgStr full_text]) busy_world
    = forwarded (jxl_oxide_ffmpeg_log_c printf NULL 16 (chars "%s")
                   [ArgStr long_text]) sample_world.
Proof.
  apply (truncation_is_not_signalled printf NULL 16
           (chars "%s") [ArgStr long_text] (chars "%s") [ArgStr full_text]
           sample_world busy_world (fun _ => "x"%char) (fun _ => "y"%char)
           long_text full_text).
  - reflexivity.
  - reflexivity.
  - apply (bool_decide_eq_true_1
             (printf (chars "%s") [ArgStr long_text] = Some long_text)).
    vm_compute. reflexivity.
  - apply (bool_decide_eq_true_1
             (printf (chars "%s") [ArgStr full_text] = Some full_text)).
    vm_compute. reflexivity.
  - apply (bool_decide_eq_true_1
             (take (Z.to_nat (capacity - 1)) long_text
              = take (Z.to_nat (capacity - 1)) full_text)).
    vm_compute. reflexivity.
Defined.

Lemma invocations_forward_in_order_witness :
  exists us w',
    mapM (invoke printf)
      [Call NULL 16 (chars "first %d") [ArgInt 1];
       Call (Ptr 7 0) 24 (chars "second %s") [ArgStr (chars "lost")];
       Call NULL 32 (chars "third") []]
      {| heap := ∅;
         oracle := [Some (fun _ => "x"%char); None; Some (fun _ => "y"%char)];
         trace := [] |}
      = Done us w' /\
    heap w' = ∅ /\
    oracle w' = drop 3 [Some (fun _ => "x"%char); None; Some (fun _ => "y"%char)] /\
    sink_calls
      (emitted {| heap := ∅;
                  oracle := [Some (fun _ => "x"%char); None; Some (fun _ => "y"%char)];
                  trace := [] |} w')
      = granted [Some (fun _ => "x"%char); None; Some (fun _ => "y"%char)]
          (zip_with line_of
             [Call NULL 16 (chars "first %d") [ArgInt 1];
              Call (Ptr 7 0) 24 (chars "second %s") [ArgStr (chars "lost")];
              Call NULL 32 (chars "third") []]
             [chars "first 1"; chars "second lost"; chars "third"]).
Proof.
  apply (invocations_forward_in_order printf
           [Call NULL 16 (chars "first %d") [ArgInt 1];
            Call (Ptr 7 0) 24 (chars "second %s") [ArgStr (chars "lost")];
            Call NULL 32 (chars "third") []]
           [chars "first 1"; chars "second lost"; chars "third"]).
  repeat constructor.
Defined.

Lemma nested_invocation_keeps_outer_buffer_witness :
  exists w2 w2',
    (malloc 65536 ≫= fun buf =>
       vsnprintf printf buf 65536 (chars "outer %d") [ArgInt 1])
      {| heap := ∅;
         oracle := [Some (fun _ => "x"%char); Some (fun _ => "y"%char)];
         trace := [] |}
      = Done (Z.of_nat (length (chars "outer 1"))) w2 /\
    load_cstring (heap w2)
      (buffer_of {| heap := ∅;
                    oracle := [Some (fun _ => "x"%char); Some (fun _ => "y"%char)];
                    trace := [] |})
      = Some (message_of (chars "outer 1")) /\
    jxl_oxide_ffmpeg_log_c printf (Ptr 7 0) 24 (chars "inner %s")
      [ArgStr (chars "line")] w2 = Done tt w2' /\
    buffer_of w2
      <> buffer_of {| heap := ∅;
                      oracle := [Some (fun _ => "x"%char); Some (fun _ => "y"%char)];
                      trace := [] |} /\
    length (sink_calls (emitted w2 w2'))
      = (if alloc_succeeds w2 then 1 else 0)%nat /\
    heap w2' = heap w2 /\
    load_cstring (heap w2')
      (buffer_of {| heap := ∅;
                    oracle := [Some (fun _ => "x"%char); Some (fun _ => "y"%char)];
                    trace := [] |})
      = Some (message_of (chars "outer 1")).
Proof.
  apply (nested_invocation_keeps_outer_buffer printf
           (chars "outer %d") [ArgInt 1]
           {| heap := ∅;
              oracle := [Some (fun _ => "x"%char); Some (fun _ => "y"%char)];
              trace := [] |}
           (fun _ => "x"%char) (chars "outer 1")
           (Ptr 7 0) 24 (chars "inner %s") [ArgStr (chars "line")]
           (chars "inner line"));
    reflexivity.
Defined.
